(** * back-to-monitor@nathan818fr: the state tracker of [BackToMonitorExtension]

    Shallow embedding of [src/extension.js].  The two JS [Map]s of the
    extension ([_windowsSavedStates], [_monitorDisconnectedWindows]) and
    the JS [Set]s of stranded windows are modelled as insertion-ordered
    association lists, since [Map.prototype.entries] and [Set] iteration
    follow insertion order.  Window handles are compared by identity: they
    are modelled as natural numbers.  Outputs are strings.

    The [windowSaver] codec, [global.display.list_windows] and the
    [MetaWindow] methods are external collaborators: they are fields of a
    [Host] record given to every handler. *)

From Stdlib Require Import List String ZArith Bool Lia.
Import ListNotations.

(** ** JS [Map], insertion ordered *)
Module JSMap.
Section Ops.
  Context {K V : Type} (eqb : K -> K -> bool).

  (** [m.get(k)] *)
Fixpoint get (k : K) (m : list (K * V)) : option V :=
    match m with
    | [] => None
    | (k', v) :: m' => if eqb k k' then Some v else get k m'
    end.

  (** [m.has(k)] *)
Definition has (k : K) (m : list (K * V)) : bool :=
    match get k m with Some _ => true | None => false end.

  (** [m.set(k, v)]: an existing key keeps its position, a new key is
      appended. *)
Fixpoint set (k : K) (v : V) (m : list (K * V)) : list (K * V) :=
    match m with
    | [] => [(k, v)]
    | (k', v') :: m' => if eqb k k' then (k, v) :: m' else (k', v') :: set k v m'
    end.

  (** [m.delete(k)] *)
Definition delete (k : K) (m : list (K * V)) : list (K * V) :=
    filter (fun kv => negb (eqb k (fst kv))) m.
End Ops.
End JSMap.

(** ** Data model *)

(** A [MetaWindow], compared by reference identity. *)
Definition Window := nat.
(** An output name such as ["HDMI-1"]. *)
Definition Output := string.

Record MonitorRect := mkRect {
  rect_x : Z; rect_y : Z; rect_width : Z; rect_height : Z }.

(** The object returned by [windowSaver.save]: the core reads and writes
    only its [x] and [y] fields; the rest is an opaque payload. *)
Record WindowState := mkWindowState {
  ws_x : Z; ws_y : Z; ws_payload : list Z }.

(** [{windowState, time}] *)
Record SavedState := mkSavedState { windowState : WindowState; time : Z }.

Definition PerWindowSavedStates := list (Output * SavedState).
Definition WindowsSavedStates := list (Window * PerWindowSavedStates).
(** A JS [Set] of windows, insertion ordered, without duplicates. *)
Definition WindowSet := list Window.
Definition MonitorDisconnectedWindows := list (Output * WindowSet).

(** [this._settings] *)
Record Settings := mkSettings { rememberState : bool; minimize : bool }.

(** The fields of [BackToMonitorExtension] after [enable()]. *)
Record Extension := mkExtension {
  windowsSavedStates : WindowsSavedStates;
  monitorDisconnectedWindows : MonitorDisconnectedWindows;
  settings : Settings }.

(** Map operations at the two key types of the extension. *)
Definition wget {V} := @JSMap.get Window V Nat.eqb.
Definition wset {V} := @JSMap.set Window V Nat.eqb.
Definition wdelete {V} := @JSMap.delete Window V Nat.eqb.
Definition oget {V} := @JSMap.get Output V String.eqb.
Definition ohas {V} := @JSMap.has Output V String.eqb.
Definition oset {V} := @JSMap.set Output V String.eqb.
Definition odelete {V} := @JSMap.delete Output V String.eqb.

(** [set.add(w)] *)
Definition set_add (w : Window) (s : WindowSet) : WindowSet :=
  if existsb (Nat.eqb w) s then s else s ++ [w].

(** [set.delete(w)] *)
Definition set_delete (w : Window) (s : WindowSet) : WindowSet :=
  filter (fun x => negb (Nat.eqb w x)) s.

(** ** External collaborators *)

Inductive CodecError := CaptureError | RestoreError.

(** A codec call either returns a value or throws. *)
Inductive result (A : Type) := Ok (a : A) | Err (e : CodecError).
Arguments Ok {A} a.
Arguments Err {A} e.

(** Modelled from the spec: [callSafely] of [src/utils] (not in the
    sources).  The spec: "every call into the codec from within a per-window
    loop is wrapped so a thrown/returned error is caught, logged ... and
    treated as operation did not happen": the call's value, or [undefined]
    when it throws. *)
Definition callSafely {A} (r : result A) : option A :=
  match r with Ok a => Some a | Err _ => None end.

(** The host: [global.display.list_windows(0)], [windowSaver] and the
    [MetaWindow] methods the handlers call. *)
Record Host := mkHost {
  list_windows : list Window;
  isInside : Window -> MonitorRect -> bool;
  allowsMove : Window -> bool;
  save : Window -> result WindowState;
  restore : Window -> WindowState -> MonitorRect -> result unit;
  can_minimize : Window -> bool }.

(** The side effects a handler issues on windows. *)
Inductive Effect :=
| Restore (w : Window) (st : WindowState) (rect : MonitorRect)
| Minimize (w : Window).

(** ** Handlers *)

Definition with_wss (e : Extension) (wss : WindowsSavedStates) : Extension :=
  mkExtension wss (monitorDisconnectedWindows e) (settings e).
Definition with_mdw (e : Extension) (mdw : MonitorDisconnectedWindows) : Extension :=
  mkExtension (windowsSavedStates e) mdw (settings e).

(** [_onRememberStateChange]; the settings binding has already stored the
    new value when the handler runs. *)
Definition onRememberStateChange (e : Extension) (b : bool) : Extension :=
  let e1 := mkExtension (windowsSavedStates e) (monitorDisconnectedWindows e)
              (mkSettings b (minimize (settings e))) in
  if negb (rememberState (settings e1)) then with_wss e1 [] (* clear() *)
  else e1.

(** [_onMinimizeChange] *)
Definition onMinimizeChange (e : Extension) (b : bool) : Extension :=
  mkExtension (windowsSavedStates e) (monitorDisconnectedWindows e)
    (mkSettings (rememberState (settings e)) b).

(** Lines 87-88: [x -= monitorRect.x; y -= monitorRect.y]. *)
Definition toRelative (st : WindowState) (r : MonitorRect) : WindowState :=
  mkWindowState (ws_x st - rect_x r) (ws_y st - rect_y r) (ws_payload st).

(** Lines 145-146: [x += monitorRect.x; y += monitorRect.y]. *)
Definition toAbsolute (st : WindowState) (r : MonitorRect) : WindowState :=
  mkWindowState (ws_x st + rect_x r) (ws_y st + rect_y r) (ws_payload st).

(** Lines 91-104: record [{windowState, time}] under [outputName] in the
    window's (lazily created) inner map, unless an entry is already there. *)
Definition saveState (outputName : Output) (time0 : Z) (w : Window)
    (st : WindowState) (wss : WindowsSavedStates) : WindowsSavedStates :=
  let wss1 := match wget w wss with
              | Some _ => wss
              | None => wset w [] wss
              end in
  let savedStates := match wget w wss1 with Some s => s | None => [] end in
  if ohas outputName savedStates then wss1 (* "Don't save ..." *)
  else wset w (oset outputName (mkSavedState st time0) savedStates) wss1.

(** The loop of lines 78-109.  [disconnectedWindows] is the [Set] object
    stored in [_monitorDisconnectedWindows] under [outputName] before the
    loop: [disconnectedWindows.add] updates that map entry. *)
Fixpoint disconnectLoop (H : Host) (remember : bool) (outputName : Output)
    (monitorRect : MonitorRect) (time0 : Z) (ws : list Window)
    (wss : WindowsSavedStates) (mdw : MonitorDisconnectedWindows)
    : WindowsSavedStates * MonitorDisconnectedWindows :=
  match ws with
  | [] => (wss, mdw)
  | w :: ws' =>
      if negb (isInside H w monitorRect) then
        disconnectLoop H remember outputName monitorRect time0 ws' wss mdw
      else
        let wss' :=
          if remember && allowsMove H w then
            match callSafely (save H w) with
            | Some windowState0 =>
                saveState outputName time0 w (toRelative windowState0 monitorRect) wss
            | None => wss
            end
          else wss in
        let disconnectedWindows := match oget outputName mdw with Some s => s | None => [] end in
        let mdw' := oset outputName (set_add w disconnectedWindows) mdw in
        disconnectLoop H remember outputName monitorRect time0 ws' wss' mdw'
  end.

(** [_onOutputDisconnected]; [now] is the value of [Date.now()] read once
    on entry. *)
Definition onOutputDisconnected (H : Host) (e : Extension) (outputName : Output)
    (monitorRect : MonitorRect) (now : Z) : Extension :=
  let mdw1 := oset outputName [] (monitorDisconnectedWindows e) in
  let '(wss', mdw') :=
    disconnectLoop H (rememberState (settings e)) outputName monitorRect now
      (list_windows H) (windowsSavedStates e) mdw1 in
  mkExtension wss' mdw' (settings e).

(** [_onOutputConnected] *)
Definition onOutputConnected (e : Extension) (outputName : Output) : Extension :=
  with_mdw e (odelete outputName (monitorDisconnectedWindows e)).

(** [_onMonitorUnloaded] *)
Definition onMonitorUnloaded (H : Host) (e : Extension) (outputName : Output)
    : Extension * list Effect :=
  match oget outputName (monitorDisconnectedWindows e) with
  | None => (e, [])
  | Some disconnectedWindows =>
      (with_mdw e (odelete outputName (monitorDisconnectedWindows e)),
       map Minimize
         (filter (fun w => minimize (settings e) && can_minimize H w) disconnectedWindows))
  end.

(** Lines 131-141 for one window: [None] when the window has no entry for
    [outputName]; otherwise its inner map once the entry and all entries
    with [otherState.time >= state.time] are deleted, with the state to
    restore, made absolute. *)
Definition resolveWindow (outputName : Output) (monitorRect : MonitorRect)
    (savedStates : PerWindowSavedStates) : option (PerWindowSavedStates * WindowState) :=
  match oget outputName savedStates with
  | None => None
  | Some state =>
      let s1 := odelete outputName savedStates in
      let s2 := filter (fun kv => negb (Z.leb (time state) (time (snd kv)))) s1 in
      Some (s2, toAbsolute (windowState state) monitorRect)
  end.

(** The loop of lines 130-152 over [_windowsSavedStates.entries()]: the
    inner maps are mutated in place, the outer map keeps its keys. *)
Fixpoint loadedLoop (H : Host) (outputName : Output) (monitorRect : MonitorRect)
    (entries : WindowsSavedStates) : WindowsSavedStates * list Effect :=
  match entries with
  | [] => ([], [])
  | (w, savedStates) :: rest =>
      let '(rest', effs) := loadedLoop H outputName monitorRect rest in
      match resolveWindow outputName monitorRect savedStates with
      | None => ((w, savedStates) :: rest', effs)
      | Some (savedStates', windowState0) =>
          (* callSafely(() => windowSaver.restore(...)): the outcome is dropped *)
          match callSafely (restore H w windowState0 monitorRect) with
          | _ => ((w, savedStates') :: rest', Restore w windowState0 monitorRect :: effs)
          end
      end
  end.

(** [_onMonitorLoaded] *)
Definition onMonitorLoaded (H : Host) (e : Extension) (outputName : Output)
    (monitorRect : MonitorRect) : Extension * list Effect :=
  let '(wss', effs) := loadedLoop H outputName monitorRect (windowsSavedStates e) in
  (with_wss e wss', effs).

(** [_onWindowRemoved] *)
Definition onWindowRemoved (e : Extension) (w : Window) : Extension :=
  mkExtension (wdelete w (windowsSavedStates e))
    (map (fun kv => (fst kv, set_delete w (snd kv))) (monitorDisconnectedWindows e))
    (settings e).

(** ** Event dispatch *)

Inductive Event :=
| OutputDisconnected (outputName : Output) (monitorRect : MonitorRect) (now : Z)
| OutputConnected (outputName : Output) (monitorRect : MonitorRect)
| MonitorUnloaded (outputName : Output) (monitorRect : MonitorRect)
| MonitorLoaded (outputName : Output) (monitorRect : MonitorRect)
| WindowRemoved (w : Window)
| RememberStateChange (b : bool)
| MinimizeChange (b : bool).

Definition step (H : Host) (e : Extension) (ev : Event) : Extension * list Effect :=
  match ev with
  | OutputDisconnected o r now => (onOutputDisconnected H e o r now, [])
  | OutputConnected o _ => (onOutputConnected e o, [])
  | MonitorUnloaded o _ => onMonitorUnloaded H e o
  | MonitorLoaded o r => onMonitorLoaded H e o r
  | WindowRemoved w => (onWindowRemoved e w, [])
  | RememberStateChange b => (onRememberStateChange e b, [])
  | MinimizeChange b => (onMinimizeChange e b, [])
  end.

(** [enable()]: both maps empty. *)
Definition enable (s : Settings) : Extension := mkExtension [] [] s.

(** States reachable from [enable] by events, each under its own host. *)
Inductive reachable : Extension -> Prop :=
| reachable_enable s : reachable (enable s)
| reachable_step e H ev : reachable e -> reachable (fst (step H e ev)).

Definition is_load (ev : Event) : bool :=
  match ev with MonitorLoaded _ _ => true | _ => false end.

(** The spec's invariant: no window maps to an empty inner map. *)
Definition no_empty_inner (e : Extension) : bool :=
  forallb (fun kv => match snd kv with [] => false | _ => true end) (windowsSavedStates e).

(** The maps of the tracker are JS [Map]s and [Set]s: distinct keys in
    every map, distinct members in every stranded set. *)
Definition well_formed (e : Extension) : Prop :=
  NoDup (map fst (windowsSavedStates e)) /\
  (forall w s, In (w, s) (windowsSavedStates e) -> NoDup (map fst s)) /\
  NoDup (map fst (monitorDisconnectedWindows e)) /\
  (forall o s, In (o, s) (monitorDisconnectedWindows e) -> NoDup s).

(** A map with distinct keys whose values all satisfy [P]. *)
Definition map_wf {K V : Type} (P : V -> Prop) (m : list (K * V)) : Prop :=
  NoDup (map fst m) /\ forall k v, In (k, v) m -> P v.

Definition inner_wf (s : PerWindowSavedStates) : Prop := NoDup (map fst s).

(** ** The spec's scenario: ["HDMI-1"] at [{0,0,1920,1080}] with window [1]
    at absolute [(100,50)]. *)
Local Open Scope Z_scope.

Definition rect_left : MonitorRect := mkRect 0 0 1920 1080.
Definition rect_right : MonitorRect := mkRect 1920 0 1920 1080.

Definition inside_rect (x y : Z) (r : MonitorRect) : bool :=
  (rect_x r <=? x) && (x <? rect_x r + rect_width r) &&
  (rect_y r <=? y) && (y <? rect_y r + rect_height r).

(** A host whose windows [1] and [2] sit at [(100,50)] and [(3000,10)];
    window [3] cannot be captured. *)
Definition win_pos (w : Window) : Z * Z :=
  match w with 1%nat => (100, 50) | 2%nat => (3000, 10) | _ => (200, 200) end.
Definition scenario_host : Host := {|
  list_windows := [1%nat; 2%nat; 3%nat];
  isInside := fun w r => inside_rect (fst (win_pos w)) (snd (win_pos w)) r;
  allowsMove := fun _ => true;
  save := fun w => if Nat.eqb w 3 then Err CaptureError
                   else Ok (mkWindowState (fst (win_pos w)) (snd (win_pos w)) []);
  restore := fun w _ _ => if Nat.eqb w 2 then Err RestoreError else Ok tt;
  can_minimize := fun _ => true |}.

Definition start : Extension := enable (mkSettings true true).

(** The spec's conflict example: window [1] saved at ["A"] (t=1) and ["B"] (t=2). *)
Definition conflict_state : Extension :=
  mkExtension
    [(1%nat, [("A"%string, mkSavedState (mkWindowState 10 20 []) 1);
              ("B"%string, mkSavedState (mkWindowState 30 40 []) 2)])]
    [] (mkSettings true true).

(** The same host, except that window [w] is reported as not movable:
    no capture is attempted for it. *)
Definition host_no_capture (H : Host) (w : Window) : Host := {|
  list_windows := list_windows H;
  isInside := isInside H;
  allowsMove := fun x => if Nat.eqb x w then false else allowsMove H x;
  save := save H;
  restore := restore H;
  can_minimize := can_minimize H |}.

(** The same host with another [windowSaver.restore]. *)
Definition with_restore (H : Host)
    (rf : Window -> WindowState -> MonitorRect -> result unit) : Host := {|
  list_windows := list_windows H;
  isInside := isInside H;
  allowsMove := allowsMove H;
  save := save H;
  restore := rf;
  can_minimize := can_minimize H |}.

Definition is_restore_of (w : Window) (ef : Effect) : bool :=
  match ef with Restore w' _ _ => Nat.eqb w w' | Minimize _ => false end.

Definition is_minimize (ef : Effect) : bool :=
  match ef with Minimize _ => true | Restore _ _ _ => false end.

(** ** Lemmas on the JS [Map] model *)

Section MapLemmas.
  Context {K V : Type} (eqb : K -> K -> bool).
  Hypothesis eqb_spec : forall a b, reflect (a = b) (eqb a b).

Lemma eqb_refl' k : eqb k k = true.
  Proof. destruct (eqb_spec k k); congruence. Qed.

Lemma get_set_same k v (m : list (K * V)) : JSMap.get eqb k (JSMap.set eqb k v m) = Some v.
  Proof.
    induction m as [|[k' v'] m IH]; simpl.
    - rewrite eqb_refl'; reflexivity.
    - destruct (eqb_spec k k') as [->|Hne]; simpl.
      + rewrite eqb_refl'; reflexivity.
      + destruct (eqb_spec k k'); [contradiction|]. exact IH.
  Qed.

Lemma get_set_other k k' v (m : list (K * V)) :
    k <> k' -> JSMap.get eqb k (JSMap.set eqb k' v m) = JSMap.get eqb k m.
  Proof.
    intros Hne. induction m as [|[k'' v'] m IH]; simpl.
    - destruct (eqb_spec k k'); [contradiction|reflexivity].
    - destruct (eqb_spec k' k'') as [->|Hne']; simpl.
      + destruct (eqb_spec k k''); [contradiction|reflexivity].
      + destruct (eqb_spec k k''); [reflexivity|exact IH].
  Qed.

Lemma get_delete_same k (m : list (K * V)) : JSMap.get eqb k (JSMap.delete eqb k m) = None.
  Proof.
    unfold JSMap.delete. induction m as [|[k' v'] m IH]; simpl; [reflexivity|].
    destruct (eqb_spec k k') as [->|Hne]; simpl; [exact IH|].
    destruct (eqb_spec k k'); [contradiction|exact IH].
  Qed.

Lemma get_delete_other k k' (m : list (K * V)) :
    k <> k' -> JSMap.get eqb k (JSMap.delete eqb k' m) = JSMap.get eqb k m.
  Proof.
    intros Hne. unfold JSMap.delete. induction m as [|[k'' v'] m IH]; simpl; [reflexivity|].
    destruct (eqb_spec k' k'') as [->|Hne']; simpl.
    - destruct (eqb_spec k k''); [contradiction|exact IH].
    - destruct (eqb_spec k k''); [reflexivity|exact IH].
  Qed.



Lemma In_delete kv k (m : list (K * V)) :
    In kv (JSMap.delete eqb k m) <-> In kv m /\ k <> fst kv.
  Proof.
    unfold JSMap.delete. rewrite filter_In.
    destruct (eqb_spec k (fst kv)); simpl; intuition congruence.
  Qed.

End MapLemmas.

Lemma nat_eqb_spec : forall a b : nat, reflect (a = b) (Nat.eqb a b).
Proof. exact Nat.eqb_spec. Qed.
Lemma string_eqb_spec : forall a b : string, reflect (a = b) (String.eqb a b).
Proof. exact String.eqb_spec. Qed.

Section SetLemmas.
  Context {K V : Type} (eqb : K -> K -> bool).
  Hypothesis eqb_spec : forall a b, reflect (a = b) (eqb a b).

Lemma set_set k v v' (m : list (K * V)) :
    JSMap.set eqb k v (JSMap.set eqb k v' m) = JSMap.set eqb k v m.
  Proof.
    induction m as [|[k' v''] m IH]; simpl.
    - rewrite (eqb_refl' eqb eqb_spec); reflexivity.
    - destruct (eqb_spec k k') as [->|Hne]; simpl.
      + rewrite (eqb_refl' eqb eqb_spec); reflexivity.
      + destruct (eqb_spec k k'); [contradiction|]. rewrite IH; reflexivity.
  Qed.

Lemma set_not_nil k v (m : list (K * V)) : JSMap.set eqb k v m <> [].
  Proof. destruct m as [|[k' v'] m]; simpl; [|destruct (eqb k k')]; discriminate. Qed.

Lemma Forall_set (Q : V -> Prop) k v (m : list (K * V)) :
    Forall (fun kv => Q (snd kv)) m -> Q v -> Forall (fun kv => Q (snd kv)) (JSMap.set eqb k v m).
  Proof.
    intros Hall Hv. induction Hall as [|[k' v'] m Hkv Hall IH]; simpl.
    - constructor; [exact Hv|constructor].
    - destruct (eqb k k'); constructor; auto.
  Qed.
End SetLemmas.

(** *** Invariant: non-empty inner maps *)

Definition nonempty_inner (kv : Window * PerWindowSavedStates) : Prop := snd kv <> [].

Lemma no_empty_inner_Forall e :
  no_empty_inner e = true <-> Forall nonempty_inner (windowsSavedStates e).
Proof.
  unfold no_empty_inner, nonempty_inner. rewrite forallb_forall, Forall_forall.
  split; intros Hall [w s] Hin; specialize (Hall _ Hin); simpl in *;
    destruct s; congruence.
Qed.

Lemma saveState_nonempty o t w st wss :
  Forall nonempty_inner wss -> Forall nonempty_inner (saveState o t w st wss).
Proof.
  intros Hall. unfold saveState.
  destruct (wget w wss) as [s|] eqn:Hg.
  - rewrite Hg. destruct (ohas o s); [exact Hall|].
    apply (Forall_set Nat.eqb (fun s => s <> [])); [exact Hall|apply set_not_nil].
  - unfold wget, wset. rewrite (get_set_same Nat.eqb nat_eqb_spec).
    unfold ohas, JSMap.has; simpl. rewrite (set_set Nat.eqb nat_eqb_spec).
    apply (Forall_set Nat.eqb (fun s => s <> [])); [exact Hall|discriminate].
Qed.

Lemma disconnectLoop_nonempty H rem o r t ws wss mdw :
  Forall nonempty_inner wss ->
  Forall nonempty_inner (fst (disconnectLoop H rem o r t ws wss mdw)).
Proof.
  revert wss mdw. induction ws as [|w ws IH]; intros wss mdw Hall; simpl; [exact Hall|].
  destruct (negb (isInside H w r)); [apply IH; exact Hall|].
  apply IH. destruct (rem && allowsMove H w); [|exact Hall].
  destruct (callSafely (save H w)); [apply saveState_nonempty|]; exact Hall.
Qed.

Lemma loadedLoop_keys H o r entries :
  map fst (fst (loadedLoop H o r entries)) = map fst entries.
Proof.
  induction entries as [|[w s] rest IH]; simpl; [reflexivity|].
  destruct (loadedLoop H o r rest) as [rest' effs]; simpl in *.
  destruct (resolveWindow o r s) as [[s' st]|]; simpl; rewrite IH; reflexivity.
Qed.

Lemma step_nonempty_not_load H e ev :
  Forall nonempty_inner (windowsSavedStates e) -> is_load ev = false ->
  Forall nonempty_inner (windowsSavedStates (fst (step H e ev))).
Proof.
  intros Hall Hnl. destruct ev as [o r t|o r|o r|o r|w|b|b]; simpl in *.
  - unfold onOutputDisconnected.
    destruct (disconnectLoop _ _ _ _ _ _ _ _) as [wss' mdw'] eqn:Hl; simpl.
    change wss' with (fst (wss', mdw')). rewrite <- Hl.
    apply disconnectLoop_nonempty; exact Hall.
  - exact Hall.
  - unfold onMonitorUnloaded. destruct (oget o _); exact Hall.
  - discriminate.
  - unfold wdelete, JSMap.delete. apply Forall_forall; intros kv Hin.
    apply filter_In in Hin as [Hin _]. rewrite Forall_forall in Hall; auto.
  - unfold onRememberStateChange; destruct b; simpl; [exact Hall|constructor].
  - exact Hall.
Qed.

(** ** Claims *)

(** C1 (amended).  Every event other than monitor-loaded keeps the
    invariant "no window of [_windowsSavedStates] maps to an empty inner
    map"; monitor-loaded deletes inner entries but keeps every window key
    of the outer map, so it can leave a window with an empty inner map. *)
Theorem saved_states_nonempty_except_load (H : Host) (e : Extension) (ev : Event)
    (Hinv : no_empty_inner e = true) :
  (is_load ev = false -> no_empty_inner (fst (step H e ev)) = true) /\
  (is_load ev = true ->
   map fst (windowsSavedStates (fst (step H e ev))) = map fst (windowsSavedStates e)).
Proof.
  split.
  - intros Hnl. apply no_empty_inner_Forall. apply no_empty_inner_Forall in Hinv.
    apply step_nonempty_not_load; assumption.
  - destruct ev; simpl; try discriminate. intros _.
    unfold onMonitorLoaded.
    destruct (loadedLoop _ _ _ _) as [wss' effs] eqn:Hl; simpl.
    change wss' with (fst (wss', effs)). rewrite <- Hl. apply loadedLoop_keys.
Qed.

Lemma saved_states_nonempty_except_load_witness :
  no_empty_inner start = true /\
  no_empty_inner (fst (step scenario_host start
                    (OutputDisconnected "HDMI-1"%string rect_left 1000))) = true.
Proof.
  split; [reflexivity|].
  apply (saved_states_nonempty_except_load scenario_host start
           (OutputDisconnected "HDMI-1"%string rect_left 1000)); reflexivity.
Defined.

(** C1 (counterexample).  From [enable], one disconnect of ["HDMI-1"]
    saves window [1]; loading ["HDMI-1"] again restores it and leaves
    window [1] in [_windowsSavedStates] with an empty inner map. *)
Lemma saved_states_empty_inner_after_load :
  let e1 := fst (step scenario_host start (OutputDisconnected "HDMI-1"%string rect_left 1000)) in
  let e2 := fst (step scenario_host e1 (MonitorLoaded "HDMI-1"%string rect_right)) in
  reachable e2 /\ no_empty_inner e2 = false /\ windowsSavedStates e2 = [(1%nat, [])].
Proof.
  cbv zeta. split; [|split; reflexivity].
  apply reachable_step, reachable_step, reachable_enable.
Qed.

(** *** Capture and restore failures *)

Lemma disconnectLoop_failed_capture H w err rem o r t ws wss mdw :
  save H w = Err err ->
  disconnectLoop H rem o r t ws wss mdw =
  disconnectLoop (host_no_capture H w) rem o r t ws wss mdw.
Proof.
  intros Hfail. revert wss mdw.
  induction ws as [|x ws IH]; intros wss mdw; simpl; [reflexivity|].
  destruct (negb (isInside H x r)); [apply IH|].
  rewrite IH. f_equal.
  destruct (Nat.eqb_spec x w) as [->|Hne]; [|reflexivity].
  rewrite Hfail; simpl. destruct (rem && allowsMove H w), rem; reflexivity.
Qed.

Lemma saveState_get_other o t w w' st wss :
  w <> w' -> wget w (saveState o t w' st wss) = wget w wss.
Proof.
  intros Hne. unfold saveState.
  destruct (wget w' wss) as [p|] eqn:Hg.
  - rewrite Hg. destruct (ohas o p); [reflexivity|].
    apply (get_set_other Nat.eqb nat_eqb_spec); exact Hne.
  - unfold wget, wset. rewrite (get_set_same Nat.eqb nat_eqb_spec).
    destruct (ohas o []);
      rewrite ?(get_set_other Nat.eqb nat_eqb_spec) by exact Hne; reflexivity.
Qed.

Lemma disconnectLoop_get_not_movable H w rem o r t ws wss mdw :
  allowsMove H w = false ->
  wget w (fst (disconnectLoop H rem o r t ws wss mdw)) = wget w wss.
Proof.
  intros Hnm. revert wss mdw.
  induction ws as [|x ws IH]; intros wss mdw; simpl; [reflexivity|].
  destruct (negb (isInside H x r)); [apply IH|].
  rewrite IH. destruct (Nat.eqb_spec x w) as [->|Hne].
  - rewrite Hnm, andb_false_r; reflexivity.
  - destruct (rem && allowsMove H x); [|reflexivity].
    destruct (callSafely (save H x)); [|reflexivity].
    apply saveState_get_other; congruence.
Qed.

Lemma loadedLoop_restore_irrelevant H rf o r entries :
  loadedLoop H o r entries = loadedLoop (with_restore H rf) o r entries.
Proof.
  induction entries as [|[w s] rest IH]; simpl; [reflexivity|].
  rewrite <- IH. destruct (loadedLoop H o r rest) as [rest' effs].
  destruct (resolveWindow o r s) as [[s' st]|]; [|reflexivity].
  destruct (callSafely (restore H w st r)), (callSafely (rf w st r)); reflexivity.
Qed.

(** C2.  A failed codec call leaves the tracker as if the call had not
    happened, and the per-window loop goes on.  Disconnect: when
    [windowSaver.save] throws for window [w], the handler's result is the
    one it has when no capture of [w] is attempted at all, and [w]'s saved
    states are those it had before.  Load: the handler's result (state and
    restore calls issued, for every window) is the same whatever
    [windowSaver.restore] returns or throws. *)
Theorem codec_failure_isolated (H : Host) (e : Extension) (w : Window) (err : CodecError)
    (Hfail : save H w = Err err) :
  (forall o r t,
     onOutputDisconnected H e o r t = onOutputDisconnected (host_no_capture H w) e o r t /\
     wget w (windowsSavedStates (onOutputDisconnected H e o r t)) =
     wget w (windowsSavedStates e)) /\
  (forall rf o r, onMonitorLoaded H e o r = onMonitorLoaded (with_restore H rf) e o r).
Proof.
  split.
  - intros o r t.
    assert (Heq : onOutputDisconnected H e o r t =
                  onOutputDisconnected (host_no_capture H w) e o r t).
    { unfold onOutputDisconnected.
      rewrite (disconnectLoop_failed_capture H w err) by exact Hfail. reflexivity. }
    split; [exact Heq|]. rewrite Heq. unfold onOutputDisconnected.
    destruct (disconnectLoop _ _ _ _ _ _ _ _) as [wss' mdw'] eqn:Hl; simpl.
    change wss' with (fst (wss', mdw')). rewrite <- Hl.
    apply disconnectLoop_get_not_movable. simpl. rewrite Nat.eqb_refl. reflexivity.
  - intros rf o r. unfold onMonitorLoaded.
    rewrite (loadedLoop_restore_irrelevant H rf). reflexivity.
Qed.

Lemma codec_failure_isolated_witness :
  save scenario_host 3%nat = Err CaptureError /\
  wget 3%nat (windowsSavedStates
                (onOutputDisconnected scenario_host start "HDMI-1"%string rect_left 1000)) = None.
Proof.
  split; [reflexivity|].
  destruct (codec_failure_isolated scenario_host start 3%nat CaptureError eq_refl) as [Hd _].
  destruct (Hd "HDMI-1"%string rect_left 1000) as [_ ->]. reflexivity.
Defined.

(** *** Monitor-loaded, window by window *)

Lemma loadedLoop_effects_absent H o r w entries :
  ~ In w (map fst entries) ->
  filter (is_restore_of w) (snd (loadedLoop H o r entries)) = [].
Proof.
  induction entries as [|[w' s] rest IH]; simpl; [reflexivity|].
  intros Hni. destruct (loadedLoop H o r rest) as [rest' effs] eqn:Hl; simpl in *.
  assert (Hr : filter (is_restore_of w) effs = []) by (apply IH; tauto).
  destruct (resolveWindow o r s) as [[s' st]|]; [|exact Hr].
  destruct (callSafely (restore H w' st r)); simpl;
    destruct (Nat.eqb_spec w w'); try (subst; tauto); exact Hr.
Qed.

Lemma loadedLoop_at H o r w s entries :
  NoDup (map fst entries) -> In (w, s) entries ->
  wget w (fst (loadedLoop H o r entries)) =
    Some (match resolveWindow o r s with Some (s', _) => s' | None => s end) /\
  filter (is_restore_of w) (snd (loadedLoop H o r entries)) =
    match resolveWindow o r s with Some (_, st) => [Restore w st r] | None => [] end.
Proof.
  induction entries as [|[w' s''] rest IH]; simpl; [contradiction|].
  intros Hnd Hin. inversion Hnd as [|? ? Hni Hnd']; subst.
  pose proof (loadedLoop_effects_absent H o r w' rest Hni) as Habs.
  destruct (loadedLoop H o r rest) as [rest' effs] eqn:Hl; simpl in *.
  destruct Hin as [Heq|Hin].
  - injection Heq as -> ->.
    destruct (resolveWindow o r s) as [[s' st]|];
      [destruct (callSafely (restore H w st r))|]; simpl;
      unfold wget; simpl; rewrite Nat.eqb_refl; simpl; rewrite ?Habs; auto.
  - assert (Hne : w <> w').
    { intros ->. apply Hni. apply (in_map fst) in Hin; exact Hin. }
    destruct (IH Hnd' Hin) as [IHg IHf].
    destruct (resolveWindow o r s'') as [[s' st]|];
      [destruct (callSafely (restore H w' st r))|]; simpl;
      unfold wget; simpl; destruct (Nat.eqb_spec w w'); try contradiction;
      split; assumption.
Qed.

Lemma resolveWindow_spec o r s st :
  oget o s = Some st ->
  exists s', resolveWindow o r s = Some (s', toAbsolute (windowState st) r) /\
    forall k x, In (k, x) s' <-> In (k, x) s /\ k <> o /\ (time x < time st)%Z.
Proof.
  intros Hg. unfold resolveWindow. rewrite Hg. eexists; split; [reflexivity|].
  intros k x. rewrite filter_In. unfold odelete.
  rewrite (In_delete String.eqb string_eqb_spec). simpl.
  destruct (Z.leb_spec (time st) (time x)); simpl; intuition (try congruence; try lia).
Qed.

(** C3.  On monitor-loaded of [o], a window [w] of [_windowsSavedStates]
    with an entry [st] for [o] keeps exactly its entries for other outputs
    whose time is [< st.time] (the entry for [o] and every entry with time
    [>= st.time] are deleted), and exactly one restore is issued for [w],
    with [st]'s state made absolute in [r]; a window without an entry for
    [o] keeps its inner map and gets no restore. *)
Theorem monitor_loaded_conflict_resolution (H : Host) (e : Extension) (o : Output)
    (r : MonitorRect) (w : Window) (s : PerWindowSavedStates)
    (Hnd : NoDup (map fst (windowsSavedStates e)))
    (Hin : In (w, s) (windowsSavedStates e)) :
  match oget o s with
  | Some st =>
      (exists s', wget w (windowsSavedStates (fst (onMonitorLoaded H e o r))) = Some s' /\
         forall k x, In (k, x) s' <-> In (k, x) s /\ k <> o /\ (time x < time st)%Z) /\
      filter (is_restore_of w) (snd (onMonitorLoaded H e o r)) =
        [Restore w (toAbsolute (windowState st) r) r]
  | None =>
      wget w (windowsSavedStates (fst (onMonitorLoaded H e o r))) = Some s /\
      filter (is_restore_of w) (snd (onMonitorLoaded H e o r)) = []
  end.
Proof.
  unfold onMonitorLoaded.
  pose proof (loadedLoop_at H o r w s _ Hnd Hin) as [Hg Hf].
  destruct (loadedLoop H o r (windowsSavedStates e)) as [wss' effs]; simpl in *.
  destruct (oget o s) as [st|] eqn:Ho.
  - destruct (resolveWindow_spec o r s st Ho) as [s' [Hres Hs']].
    rewrite Hres in Hg, Hf. split; [exists s'; split|]; assumption.
  - unfold resolveWindow in Hg, Hf. rewrite Ho in Hg, Hf. split; assumption.
Qed.

Lemma monitor_loaded_conflict_resolution_witness :
  NoDup (map fst (windowsSavedStates conflict_state)) /\
  filter (is_restore_of 1%nat)
    (snd (onMonitorLoaded scenario_host conflict_state "A"%string rect_right)) =
    [Restore 1%nat (mkWindowState 1930 20 []) rect_right].
Proof.
  assert (Hnd : NoDup (map fst (windowsSavedStates conflict_state)))
    by (repeat constructor; simpl; tauto).
  split; [exact Hnd|].
  exact (proj2 (monitor_loaded_conflict_resolution scenario_host conflict_state "A"%string
                  rect_right 1%nat _ Hnd (or_introl eq_refl))).
Defined.

(** The spec's example: loading ["A"] removes both entries of window [1]
    and restores it once, from ["A"]'s state; nothing is restored from ["B"]. *)
Lemma conflict_example :
  onMonitorLoaded scenario_host conflict_state "A"%string rect_right =
  (with_wss conflict_state [(1%nat, [])],
   [Restore 1%nat (mkWindowState 1930 20 []) rect_right]).
Proof. reflexivity. Qed.

(** *** Disconnect, window by window *)

Lemma saveState_pending o t w st (wss : WindowsSavedStates) (inner : PerWindowSavedStates) :
  wget w wss = Some inner -> ohas o inner = true -> saveState o t w st wss = wss.
Proof.
  intros Hg Hh. unfold saveState. rewrite Hg. cbv beta iota. rewrite Hg, Hh. reflexivity.
Qed.

Lemma disconnectLoop_keeps_pending H rem o r t ws wss mdw w inner :
  wget w wss = Some inner -> ohas o inner = true ->
  wget w (fst (disconnectLoop H rem o r t ws wss mdw)) = Some inner.
Proof.
  intros Hg Hh. revert wss mdw Hg.
  induction ws as [|x ws IH]; intros wss mdw Hg; simpl; [exact Hg|].
  destruct (negb (isInside H x r)); [apply IH; exact Hg|].
  apply IH. destruct (rem && allowsMove H x); [|exact Hg].
  destruct (callSafely (save H x)) as [st|]; [|exact Hg].
  destruct (Nat.eqb_spec x w) as [->|Hne].
  - rewrite (saveState_pending o t w _ wss inner Hg Hh). exact Hg.
  - rewrite saveState_get_other by congruence. exact Hg.
Qed.

(** C4.  First capture wins: when window [w] already has a pending entry
    [st] for output [o], a further disconnect of [o] leaves [w]'s inner
    map, hence [st] with its state and time, unchanged. *)
Theorem first_capture_wins (H : Host) (e : Extension) (w : Window)
    (inner : PerWindowSavedStates) (o : Output) (st : SavedState)
    (r : MonitorRect) (t : Z)
    (Hw : wget w (windowsSavedStates e) = Some inner)
    (Ho : oget o inner = Some st) :
  wget w (windowsSavedStates (onOutputDisconnected H e o r t)) = Some inner /\
  oget o inner = Some st.
Proof.
  split; [|exact Ho]. unfold onOutputDisconnected.
  destruct (disconnectLoop _ _ _ _ _ _ _ _) as [wss' mdw'] eqn:Hl; simpl.
  change wss' with (fst (wss', mdw')). rewrite <- Hl.
  apply disconnectLoop_keeps_pending with (inner := inner); [exact Hw|].
  unfold ohas, JSMap.has. unfold oget in Ho. rewrite Ho. reflexivity.
Qed.

Lemma first_capture_wins_witness :
  let e1 := onOutputDisconnected scenario_host start "HDMI-1"%string rect_left 1000 in
  wget 1%nat (windowsSavedStates
                (onOutputDisconnected scenario_host e1 "HDMI-1"%string rect_right 2000)) =
  Some [("HDMI-1"%string, mkSavedState (mkWindowState 100 50 []) 1000)].
Proof.
  cbv zeta.
  apply (first_capture_wins scenario_host
           (onOutputDisconnected scenario_host start "HDMI-1"%string rect_left 1000) 1%nat
           [("HDMI-1"%string, mkSavedState (mkWindowState 100 50 []) 1000)] "HDMI-1"%string
           (mkSavedState (mkWindowState 100 50 []) 1000) rect_right 2000); reflexivity.
Defined.

(** C5.  Coordinate round trip: making a state relative to [R] at
    disconnect and absolute in [R'] at load shifts it by [R'] - [R], and
    gives it back exactly when [R' = R].  In the spec's scenario, window
    [1] at [(100,50)] on ["HDMI-1"] at [{0,0,1920,1080}] is saved as
    [(100,50)] at [t=1000] and restored at [(2020,50)] when ["HDMI-1"]
    loads at [{1920,0,1920,1080}]. *)
Theorem coordinate_round_trip (st : WindowState) (R R' : MonitorRect) :
  toAbsolute (toRelative st R) R' =
    mkWindowState (ws_x st - rect_x R + rect_x R') (ws_y st - rect_y R + rect_y R')
      (ws_payload st) /\
  toAbsolute (toRelative st R) R = st /\
  (let e1 := onOutputDisconnected scenario_host start "HDMI-1"%string rect_left 1000 in
   wget 1%nat (windowsSavedStates e1) =
     Some [("HDMI-1"%string, mkSavedState (mkWindowState 100 50 []) 1000)] /\
   snd (onMonitorLoaded scenario_host e1 "HDMI-1"%string rect_right) =
     [Restore 1%nat (mkWindowState 2020 50 []) rect_right]).
Proof.
  destruct st as [x y p]; simpl. split; [reflexivity|]. split.
  - unfold toAbsolute, toRelative; simpl. rewrite !Z.sub_add; reflexivity.
  - split; reflexivity.
Qed.

(** *** Stranded sets *)

Lemma set_add_In x w s : In x (set_add w s) <-> In x s \/ x = w.
Proof.
  unfold set_add. destruct (existsb (Nat.eqb w) s) eqn:He.
  - apply existsb_exists in He as [y [Hy Hwy]]. apply Nat.eqb_eq in Hwy; subst.
    split; [auto|intros [Hx| ->]; assumption].
  - rewrite in_app_iff; simpl. intuition.
Qed.

Lemma disconnectLoop_stranded H rem o r t ws wss (mdw : MonitorDisconnectedWindows)
    (s0 : WindowSet) :
  oget o mdw = Some s0 ->
  exists s, oget o (snd (disconnectLoop H rem o r t ws wss mdw)) = Some s /\
    forall x, In x s <-> In x s0 \/ (In x ws /\ isInside H x r = true).
Proof.
  revert wss mdw s0. induction ws as [|w ws IH]; intros wss mdw s0 Hg; simpl.
  - exists s0; split; [exact Hg|]. intuition.
  - destruct (isInside H w r) eqn:Hin; simpl.
    + rewrite Hg.
      match goal with |- context [disconnectLoop H rem o r t ws ?W ?M] =>
        destruct (IH W M (set_add w s0)) as [s [Hs Hmem]] end.
      { unfold oget, oset. apply (get_set_same String.eqb string_eqb_spec). }
      exists s; split; [exact Hs|]. intros x. rewrite Hmem, set_add_In.
      split; [intros [[H1|H1]|[H1 H2]]; subst; auto|].
      intros [H1|[[H1|H1] H2]]; subst; auto.
    + destruct (IH wss mdw s0 Hg) as [s [Hs Hmem]].
      exists s; split; [exact Hs|]. intros x. rewrite Hmem.
      split; [intros [H1|[H1 H2]]; auto|].
      intros [H1|[[H1|H1] H2]]; subst; auto. congruence.
Qed.

(** C6.  After [onOutputDisconnected H e o r t] the stranded set of [o]
    is a fresh one holding exactly the listed windows inside [r]:
    rememberState, [allowsMove] and the outcome of [windowSaver.save] play
    no part. *)
Theorem disconnect_stranded_set (H : Host) (e : Extension) (o : Output)
    (r : MonitorRect) (t : Z) :
  exists s, oget o (monitorDisconnectedWindows (onOutputDisconnected H e o r t)) = Some s /\
    forall x, In x s <-> In x (list_windows H) /\ isInside H x r = true.
Proof.
  unfold onOutputDisconnected.
  destruct (disconnectLoop_stranded H (rememberState (settings e)) o r t (list_windows H)
              (windowsSavedStates e) (oset o [] (monitorDisconnectedWindows e)) [])
    as [s [Hs Hmem]].
  { unfold oget, oset. apply (get_set_same String.eqb string_eqb_spec). }
  destruct (disconnectLoop _ _ _ _ _ _ _ _) as [wss' mdw'] eqn:Hl; simpl in *.
  exists s; split; [exact Hs|]. intros x. rewrite Hmem. simpl. tauto.
Qed.

(** C7.  Minimize only on a true unload: disconnect of [o], then connect
    of [o], then unload of [o] issues no effect at all, in particular no
    minimize, from any state and under any hosts. *)
Theorem no_minimize_after_reconnect (H1 H2 H3 : Host) (e : Extension) (o : Output)
    (r1 r2 r3 : MonitorRect) (t : Z) :
  let '(e1, effs1) := step H1 e (OutputDisconnected o r1 t) in
  let '(e2, effs2) := step H2 e1 (OutputConnected o r2) in
  let '(e3, effs3) := step H3 e2 (MonitorUnloaded o r3) in
  effs1 ++ effs2 ++ effs3 = [] /\ monitorDisconnectedWindows e3 = monitorDisconnectedWindows e2.
Proof.
  simpl. unfold onMonitorUnloaded, onOutputConnected, with_mdw; simpl.
  unfold oget, odelete. rewrite (get_delete_same String.eqb string_eqb_spec).
  split; reflexivity.
Qed.

(** *** Window removal *)

Lemma set_delete_In x w s : In x (set_delete w s) <-> In x s /\ x <> w.
Proof.
  unfold set_delete. rewrite filter_In.
  destruct (Nat.eqb_spec w x); simpl; intuition congruence.
Qed.

Lemma get_map_snd (f : WindowSet -> WindowSet) o (m : MonitorDisconnectedWindows) :
  oget o (map (fun kv => (fst kv, f (snd kv))) m) = option_map f (oget o m).
Proof.
  induction m as [|[o' s] m IH]; simpl; [reflexivity|].
  unfold oget in *; simpl. destruct (String.eqb o o'); [reflexivity|exact IH].
Qed.

(** C8.  After [onWindowRemoved w], [w] has no entry in
    [_windowsSavedStates] and belongs to no stranded set; the saved states
    of every other window are unchanged, and every stranded set keeps its
    output and its other windows. *)
Theorem window_removed_cleanup (e : Extension) (w : Window) :
  let e' := onWindowRemoved e w in
  wget w (windowsSavedStates e') = None /\
  (forall o s, In (o, s) (monitorDisconnectedWindows e') -> ~ In w s) /\
  (forall w', w' <> w -> wget w' (windowsSavedStates e') = wget w' (windowsSavedStates e)) /\
  (forall o, oget o (monitorDisconnectedWindows e') =
             option_map (set_delete w) (oget o (monitorDisconnectedWindows e))) /\
  (forall x s, x <> w -> (In x (set_delete w s) <-> In x s)).
Proof.
  cbv zeta. unfold onWindowRemoved; simpl. split; [|split; [|split; [|split]]].
  - unfold wget, wdelete. apply (get_delete_same Nat.eqb nat_eqb_spec).
  - intros o s Hin. apply in_map_iff in Hin as [[o' s'] [Heq _]].
    injection Heq as _ <-. rewrite set_delete_In. tauto.
  - intros w' Hne. unfold wget, wdelete.
    apply (get_delete_other Nat.eqb nat_eqb_spec); exact Hne.
  - intros o. apply get_map_snd.
  - intros x s Hne. rewrite set_delete_In. tauto.
Qed.

(** C9.  [_onRememberStateChange]: switched to false, it empties
    [_windowsSavedStates] and leaves [_monitorDisconnectedWindows] as it
    was; switched to true, it changes neither map. *)
Theorem remember_state_toggle (e : Extension) (b : bool) :
  let e' := onRememberStateChange e b in
  monitorDisconnectedWindows e' = monitorDisconnectedWindows e /\
  windowsSavedStates e' = (if b then windowsSavedStates e else []).
Proof. destruct b; split; reflexivity. Qed.

(** *** Timestamps of the entries a disconnect records *)

Lemma saveState_new_entries o t w st (wss : WindowsSavedStates) w'
    (inner' : PerWindowSavedStates) k x :
  wget w' (saveState o t w st wss) = Some inner' -> oget k inner' = Some x ->
  (exists inner, wget w' wss = Some inner /\ oget k inner = Some x) \/
  (k = o /\ time x = t).
Proof.
  intros H1 H2. destruct (Nat.eqb_spec w' w) as [->|Hne].
  - unfold saveState in H1. destruct (wget w wss) as [p|] eqn:Hg.
    + repeat (rewrite Hg in H1; cbv beta iota in H1).
      destruct (ohas o p).
      * left; exists inner'; split; [congruence|assumption].
      * unfold wget, wset in H1. rewrite (get_set_same Nat.eqb nat_eqb_spec) in H1.
        injection H1 as <-. unfold oget, oset in H2.
        destruct (String.eqb_spec k o) as [->|Hko].
        -- rewrite (get_set_same String.eqb string_eqb_spec) in H2.
           injection H2 as <-. right; split; reflexivity.
        -- rewrite (get_set_other String.eqb string_eqb_spec) in H2 by exact Hko.
           left; exists p; split; [congruence|assumption].
    + repeat (rewrite Hg in H1; cbv beta iota in H1).
      unfold wget, wset in H1. rewrite (get_set_same Nat.eqb nat_eqb_spec) in H1.
      simpl in H1. rewrite (set_set Nat.eqb nat_eqb_spec) in H1.
      rewrite (get_set_same Nat.eqb nat_eqb_spec) in H1.
      injection H1 as <-. unfold oget in H2; simpl in H2.
      destruct (String.eqb_spec k o) as [->|]; [|discriminate].
      injection H2 as <-. right; split; reflexivity.
  - rewrite saveState_get_other in H1 by exact Hne.
    left; exists inner'; split; assumption.
Qed.

Lemma disconnectLoop_new_entries H rem o r t ws (wss : WindowsSavedStates) mdw w'
    (inner' : PerWindowSavedStates) k x :
  wget w' (fst (disconnectLoop H rem o r t ws wss mdw)) = Some inner' ->
  oget k inner' = Some x ->
  (exists inner, wget w' wss = Some inner /\ oget k inner = Some x) \/
  (k = o /\ time x = t).
Proof.
  revert wss mdw inner' x. induction ws as [|w ws IH]; intros wss mdw inner' x H1 H2; simpl in H1.
  - left; exists inner'; split; assumption.
  - destruct (negb (isInside H w r)); [exact (IH _ _ _ _ H1 H2)|].
    destruct (IH _ _ _ _ H1 H2) as [[inner [Hg Hk]]|Hnew]; [|right; exact Hnew].
    destruct (rem && allowsMove H w); [|left; exists inner; split; assumption].
    destruct (callSafely (save H w)); [|left; exists inner; split; assumption].
    exact (saveState_new_entries _ _ _ _ _ _ _ _ _ Hg Hk).
Qed.

(** C10.  [Date.now()] is read once per disconnect: every entry present
    after [onOutputDisconnected H e o r now] either was already there or
    is an entry for [o] with time [now].  And since load deletes the
    entries with time [>=] the restored one, restoring an entry [sa] of a
    window also discards every other entry of that window with the same
    time as [sa]. *)
Theorem disconnect_single_timestamp (H : Host) (e : Extension) (o : Output)
    (r : MonitorRect) (now : Z) :
  (forall w (inner' : PerWindowSavedStates) k x,
     wget w (windowsSavedStates (onOutputDisconnected H e o r now)) = Some inner' ->
     oget k inner' = Some x ->
     (exists inner, wget w (windowsSavedStates e) = Some inner /\ oget k inner = Some x) \/
     (k = o /\ time x = now)) /\
  (forall a r' w s sa,
     NoDup (map fst (windowsSavedStates e)) -> In (w, s) (windowsSavedStates e) ->
     oget a s = Some sa ->
     exists s', wget w (windowsSavedStates (fst (onMonitorLoaded H e a r'))) = Some s' /\
       forall k x, In (k, x) s -> time x = time sa -> ~ In (k, x) s').
Proof.
  split.
  - intros w inner' k x H1 H2. unfold onOutputDisconnected in H1.
    destruct (disconnectLoop _ _ _ _ _ _ _ _) as [wss' mdw'] eqn:Hl; simpl in H1.
    change wss' with (fst (wss', mdw')) in H1. rewrite <- Hl in H1.
    exact (disconnectLoop_new_entries _ _ _ _ _ _ _ _ _ _ _ _ H1 H2).
  - intros a r' w s sa Hnd Hin Ha. unfold onMonitorLoaded.
    pose proof (loadedLoop_at H a r' w s _ Hnd Hin) as [Hg _].
    destruct (loadedLoop H a r' (windowsSavedStates e)) as [wss' effs]; simpl in *.
    destruct (resolveWindow_spec a r' s sa Ha) as [s' [Hres Hs']].
    rewrite Hres in Hg. exists s'; split; [exact Hg|].
    intros k x _ Ht Hin'. apply Hs' in Hin' as [_ [_ Hlt]]. lia.
Qed.

(** Equal-time saves in action: window [1] saved at ["A"] and ["B"] at the
    same time; loading ["A"] discards both. *)
Lemma equal_time_example :
  windowsSavedStates
    (fst (onMonitorLoaded scenario_host
            (mkExtension
               [(1%nat, [("A"%string, mkSavedState (mkWindowState 10 20 []) 5);
                         ("B"%string, mkSavedState (mkWindowState 30 40 []) 5)])]
               [] (mkSettings true true))
            "A"%string rect_left)) = [(1%nat, [])].
Proof. reflexivity. Qed.

(** ** Further properties of the handlers *)

Section MoreMapLemmas.
Context {K V : Type} (eqb : K -> K -> bool).
Hypothesis eqb_spec : forall a b, reflect (a = b) (eqb a b).

Lemma delete_absent k (m : list (K * V)) :
  JSMap.get eqb k m = None -> JSMap.delete eqb k m = m.
Proof.
  unfold JSMap.delete. induction m as [|[k' v'] m IH]; simpl; [reflexivity|].
  destruct (eqb_spec k k'); simpl; [discriminate|]. intros Hg; f_equal; exact (IH Hg).
Qed.

Lemma delete_delete k (m : list (K * V)) :
  JSMap.delete eqb k (JSMap.delete eqb k m) = JSMap.delete eqb k m.
Proof.
  apply delete_absent. apply (get_delete_same eqb eqb_spec).
Qed.

Lemma get_In k v (m : list (K * V)) : JSMap.get eqb k m = Some v -> In (k, v) m.
Proof.
  induction m as [|[k' v'] m IH]; simpl; [discriminate|].
  destruct (eqb_spec k k') as [->|]; [injection 1 as ->; left; reflexivity|].
  intros Hg; right; exact (IH Hg).
Qed.

Lemma In_keys_set x k v (m : list (K * V)) :
  In x (map fst (JSMap.set eqb k v m)) -> x = k \/ In x (map fst m).
Proof.
  induction m as [|[k' v'] m IH]; simpl.
  - intuition.
  - destruct (eqb_spec k k') as [->|]; simpl; [tauto|]. intros [->|Hin]; [tauto|].
    destruct (IH Hin); tauto.
Qed.

Lemma NoDup_keys_set k v (m : list (K * V)) :
  NoDup (map fst m) -> NoDup (map fst (JSMap.set eqb k v m)).
Proof.
  induction m as [|[k' v'] m IH]; simpl; intros Hnd.
  - constructor; [intros []|constructor].
  - inversion Hnd as [|? ? Hni Hnd']; subst.
    destruct (eqb_spec k k') as [->|Hne]; simpl; constructor; auto.
    intros Hin. apply In_keys_set in Hin as [->|Hin]; auto.
Qed.

Lemma NoDup_keys_filter (p : K * V -> bool) (m : list (K * V)) :
  NoDup (map fst m) -> NoDup (map fst (filter p m)).
Proof.
  induction m as [|[k' v'] m IH]; simpl; intros Hnd; [constructor|].
  inversion Hnd as [|? ? Hni Hnd']; subst.
  destruct (p (k', v')); simpl; [|auto]. constructor; [|auto].
  intros Hin. apply Hni. apply in_map_iff in Hin as [[k'' v''] [Heq Hin]]; simpl in Heq; subst.
  apply filter_In in Hin as [Hin _]. apply (in_map fst) in Hin; exact Hin.
Qed.
End MoreMapLemmas.

Lemma filter_false {A} (l : list A) : filter (fun _ => false) l = [].
Proof. induction l; simpl; auto. Qed.

Lemma set_delete_idem w s : set_delete w (set_delete w s) = set_delete w s.
Proof.
  unfold set_delete. induction s as [|x s IH]; simpl; [reflexivity|].
  destruct (Nat.eqb w x) eqn:Hx; simpl; [exact IH|rewrite Hx; simpl; f_equal; exact IH].
Qed.

(** X1.  [_onMonitorUnloaded] with a stranded set [s] for [o]: the set is
    removed (other outputs' sets and the saved states stay), and the
    windows of [s] that can be minimized are minimized, in [s]'s order,
    when the [minimize] setting is on; nothing is minimized otherwise. *)
Theorem unload_minimizes_stranded (H : Host) (e : Extension) (o : Output) (s : WindowSet)
    (Hs : oget o (monitorDisconnectedWindows e) = Some s) :
  let '(e', effs) := onMonitorUnloaded H e o in
  oget o (monitorDisconnectedWindows e') = None /\
  (forall o', o' <> o ->
     oget o' (monitorDisconnectedWindows e') = oget o' (monitorDisconnectedWindows e)) /\
  windowsSavedStates e' = windowsSavedStates e /\
  effs = (if minimize (settings e) then map Minimize (filter (can_minimize H) s) else []).
Proof.
  unfold onMonitorUnloaded. rewrite Hs. simpl. unfold oget, odelete.
  split; [apply (get_delete_same String.eqb string_eqb_spec)|].
  split; [intros o' Hne; apply (get_delete_other String.eqb string_eqb_spec); exact Hne|].
  split; [reflexivity|].
  destruct (minimize (settings e)); simpl; [reflexivity|]. rewrite filter_false. reflexivity.
Qed.

Lemma unload_minimizes_stranded_witness :
  oget "HDMI-1"%string (monitorDisconnectedWindows
    (onOutputDisconnected scenario_host start "HDMI-1"%string rect_left 1000)) = Some [1%nat; 3%nat] /\
  snd (onMonitorUnloaded scenario_host
         (onOutputDisconnected scenario_host start "HDMI-1"%string rect_left 1000) "HDMI-1"%string) =
    [Minimize 1%nat; Minimize 3%nat].
Proof.
  split; [reflexivity|].
  pose proof (unload_minimizes_stranded scenario_host
                (onOutputDisconnected scenario_host start "HDMI-1"%string rect_left 1000)
                "HDMI-1"%string [1%nat; 3%nat] eq_refl) as Hu.
  destruct (onMonitorUnloaded _ _ _) as [e' effs]. simpl.
  destruct Hu as [_ [_ [_ ->]]]. reflexivity.
Defined.

(** X2.  An output without a stranded set: [_onOutputConnected] and
    [_onMonitorUnloaded] for it leave the whole state unchanged and
    minimize nothing. *)
Theorem no_stranded_set_noop (H : Host) (e : Extension) (o : Output)
    (Hs : oget o (monitorDisconnectedWindows e) = None) :
  onOutputConnected e o = e /\ onMonitorUnloaded H e o = (e, []).
Proof.
  unfold onMonitorUnloaded, onOutputConnected, with_mdw. rewrite Hs. split; [|reflexivity].
  unfold odelete. rewrite (delete_absent String.eqb string_eqb_spec) by exact Hs.
  destruct e; reflexivity.
Qed.

Lemma no_stranded_set_noop_witness :
  oget "HDMI-1"%string (monitorDisconnectedWindows start) = None /\
  onOutputConnected start "HDMI-1"%string = start.
Proof.
  split; [reflexivity|].
  exact (proj1 (no_stranded_set_noop scenario_host start "HDMI-1"%string eq_refl)).
Defined.

(** X3.  [_onOutputConnected o] removes [o]'s stranded set, leaves every
    other output's set and the saved states as they were, and is
    idempotent. *)
Theorem connect_removes_stranded (e : Extension) (o : Output) :
  oget o (monitorDisconnectedWindows (onOutputConnected e o)) = None /\
  (forall o', o' <> o ->
     oget o' (monitorDisconnectedWindows (onOutputConnected e o)) =
     oget o' (monitorDisconnectedWindows e)) /\
  windowsSavedStates (onOutputConnected e o) = windowsSavedStates e /\
  onOutputConnected (onOutputConnected e o) o = onOutputConnected e o.
Proof.
  unfold onOutputConnected, with_mdw; simpl. unfold oget, odelete.
  split; [apply (get_delete_same String.eqb string_eqb_spec)|].
  split; [intros o' Hne; apply (get_delete_other String.eqb string_eqb_spec); exact Hne|].
  split; [reflexivity|]. rewrite (delete_delete String.eqb string_eqb_spec). reflexivity.
Qed.

(** X4.  [_onWindowRemoved] is idempotent: removing a window twice is
    removing it once. *)
Theorem window_removed_idempotent (e : Extension) (w : Window) :
  onWindowRemoved (onWindowRemoved e w) w = onWindowRemoved e w.
Proof.
  unfold onWindowRemoved; simpl. f_equal.
  - unfold wdelete. apply (delete_delete Nat.eqb nat_eqb_spec).
  - rewrite map_map. apply map_ext. intros [o s]; simpl. rewrite set_delete_idem. reflexivity.
Qed.

(** *** What a disconnect changes and what it leaves *)

Lemma disconnectLoop_remember_false H o r t ws wss mdw :
  fst (disconnectLoop H false o r t ws wss mdw) = wss.
Proof.
  revert wss mdw. induction ws as [|w ws IH]; intros wss mdw; simpl; [reflexivity|].
  destruct (negb (isInside H w r)); apply IH.
Qed.

Lemma disconnectLoop_other_outputs H rem o r t ws wss (mdw : MonitorDisconnectedWindows) o' :
  o' <> o -> oget o' (snd (disconnectLoop H rem o r t ws wss mdw)) = oget o' mdw.
Proof.
  intros Hne. revert wss mdw. induction ws as [|w ws IH]; intros wss mdw; simpl; [reflexivity|].
  destruct (negb (isInside H w r)); [apply IH|]. rewrite IH.
  unfold oget, oset. apply (get_set_other String.eqb string_eqb_spec); exact Hne.
Qed.

Lemma NoDup_snoc (w : Window) s : NoDup s -> ~ In w s -> NoDup (s ++ [w]).
Proof.
  induction s as [|x s IH]; simpl; intros Hnd Hni.
  - constructor; [intros []|constructor].
  - inversion Hnd as [|? ? Hx Hnd']; subst. constructor.
    + rewrite in_app_iff; simpl. intuition.
    + apply IH; tauto.
Qed.

Lemma set_add_NoDup w s : NoDup s -> NoDup (set_add w s).
Proof.
  intros Hnd. unfold set_add. destruct (existsb (Nat.eqb w) s) eqn:He; [exact Hnd|].
  apply NoDup_snoc; [exact Hnd|]. intros Hin.
  assert (existsb (Nat.eqb w) s = true) by (apply existsb_exists; exists w; split;
    [exact Hin|apply Nat.eqb_refl]). congruence.
Qed.

Lemma disconnectLoop_stranded_NoDup H rem o r t ws wss (mdw : MonitorDisconnectedWindows)
    (s0 : WindowSet) :
  oget o mdw = Some s0 -> NoDup s0 ->
  exists s, oget o (snd (disconnectLoop H rem o r t ws wss mdw)) = Some s /\ NoDup s.
Proof.
  revert wss mdw s0. induction ws as [|w ws IH]; intros wss mdw s0 Hg Hnd; simpl.
  - exists s0; split; assumption.
  - destruct (negb (isInside H w r)); [exact (IH _ _ _ Hg Hnd)|].
    rewrite Hg. apply (IH _ _ (set_add w s0)); [|apply set_add_NoDup; exact Hnd].
    unfold oget, oset. apply (get_set_same String.eqb string_eqb_spec).
Qed.

(** X5.  With [rememberState] off, [_onOutputDisconnected] records nothing:
    [_windowsSavedStates] is left as it was. *)
Theorem disconnect_without_remember (H : Host) (e : Extension) (o : Output)
    (r : MonitorRect) (now : Z) (Hoff : rememberState (settings e) = false) :
  windowsSavedStates (onOutputDisconnected H e o r now) = windowsSavedStates e.
Proof.
  unfold onOutputDisconnected. rewrite Hoff.
  pose proof (disconnectLoop_remember_false H o r now (list_windows H) (windowsSavedStates e)
                (oset o [] (monitorDisconnectedWindows e))) as Hf.
  destruct (disconnectLoop _ _ _ _ _ _ _ _) as [wss' mdw']; simpl in *. exact Hf.
Qed.

Lemma disconnect_without_remember_witness :
  windowsSavedStates (onOutputDisconnected scenario_host (enable (mkSettings false true))
                        "HDMI-1"%string rect_left 1000) = [].
Proof.
  apply (disconnect_without_remember scenario_host (enable (mkSettings false true))); reflexivity.
Defined.

(** X6.  [_onOutputDisconnected o] touches no other output's stranded set
    and keeps the settings; the set it installs for [o] has no duplicate
    window. *)
Theorem disconnect_stranded_frame (H : Host) (e : Extension) (o : Output)
    (r : MonitorRect) (now : Z) :
  let e' := onOutputDisconnected H e o r now in
  (forall o', o' <> o ->
     oget o' (monitorDisconnectedWindows e') = oget o' (monitorDisconnectedWindows e)) /\
  settings e' = settings e /\
  exists s, oget o (monitorDisconnectedWindows e') = Some s /\ NoDup s.
Proof.
  cbv zeta. unfold onOutputDisconnected.
  pose proof (disconnectLoop_stranded_NoDup H (rememberState (settings e)) o r now
                (list_windows H) (windowsSavedStates e) (oset o [] (monitorDisconnectedWindows e)) [])
    as Hnd.
  pose proof (disconnectLoop_other_outputs H (rememberState (settings e)) o r now
                (list_windows H) (windowsSavedStates e) (oset o [] (monitorDisconnectedWindows e)))
    as Hoth.
  destruct (disconnectLoop _ _ _ _ _ _ _ _) as [wss' mdw']; simpl in *.
  split; [|split; [reflexivity|]].
  - intros o' Hne. rewrite (Hoth o' Hne). unfold oget, oset.
    apply (get_set_other String.eqb string_eqb_spec); exact Hne.
  - apply Hnd; [|constructor]. unfold oget, oset.
    apply (get_set_same String.eqb string_eqb_spec).
Qed.

Lemma saveState_keeps_entry o t w st (wss : WindowsSavedStates) w'
    (inner : PerWindowSavedStates) k x :
  wget w' wss = Some inner -> oget k inner = Some x ->
  exists inner', wget w' (saveState o t w st wss) = Some inner' /\ oget k inner' = Some x.
Proof.
  intros Hg Hk. destruct (Nat.eqb_spec w' w) as [->|Hne].
  - unfold saveState. repeat (rewrite Hg; cbv beta iota).
    destruct (ohas o inner) eqn:Hh; [exists inner; split; assumption|].
    exists (oset o (mkSavedState st t) inner). split.
    + unfold wget, wset. apply (get_set_same Nat.eqb nat_eqb_spec).
    + unfold oget, oset. rewrite (get_set_other String.eqb string_eqb_spec); [exact Hk|].
      intros ->. unfold ohas, JSMap.has in Hh. unfold oget in Hk. rewrite Hk in Hh. discriminate.
  - exists inner. rewrite saveState_get_other by exact Hne. split; assumption.
Qed.

Lemma disconnectLoop_keeps_entry H rem o r t ws (wss : WindowsSavedStates) mdw w
    (inner : PerWindowSavedStates) k x :
  wget w wss = Some inner -> oget k inner = Some x ->
  exists inner', wget w (fst (disconnectLoop H rem o r t ws wss mdw)) = Some inner' /\
    oget k inner' = Some x.
Proof.
  revert wss mdw inner. induction ws as [|y ws IH]; intros wss mdw inner Hg Hk; simpl.
  - exists inner; split; assumption.
  - destruct (negb (isInside H y r)); [exact (IH _ _ _ Hg Hk)|].
    destruct (rem && allowsMove H y); [|exact (IH _ _ _ Hg Hk)].
    destruct (callSafely (save H y)) as [st|]; [|exact (IH _ _ _ Hg Hk)].
    destruct (saveState_keeps_entry o t y (toRelative st r) wss w inner k x Hg Hk)
      as [inner1 [Hg1 Hk1]].
    exact (IH _ _ _ Hg1 Hk1).
Qed.

(** X7.  A disconnect never drops or alters a pending saved state: every
    entry [(k, x)] of every window is still there afterwards. *)
Theorem disconnect_keeps_saved_states (H : Host) (e : Extension) (o : Output)
    (r : MonitorRect) (now : Z) (w : Window) (inner : PerWindowSavedStates)
    (k : Output) (x : SavedState)
    (Hw : wget w (windowsSavedStates e) = Some inner) (Hk : oget k inner = Some x) :
  exists inner', wget w (windowsSavedStates (onOutputDisconnected H e o r now)) = Some inner' /\
    oget k inner' = Some x.
Proof.
  unfold onOutputDisconnected.
  destruct (disconnectLoop_keeps_entry H (rememberState (settings e)) o r now (list_windows H)
              (windowsSavedStates e) (oset o [] (monitorDisconnectedWindows e)) w inner k x Hw Hk)
    as [inner' [Hg Hk']].
  destruct (disconnectLoop _ _ _ _ _ _ _ _) as [wss' mdw']; simpl in *.
  exists inner'; split; assumption.
Qed.

Lemma disconnect_keeps_saved_states_witness :
  exists inner',
    wget 1%nat (windowsSavedStates
                  (onOutputDisconnected scenario_host conflict_state "C"%string rect_left 7)) =
      Some inner' /\
    oget "B"%string inner' = Some (mkSavedState (mkWindowState 30 40 []) 2).
Proof.
  apply (disconnect_keeps_saved_states scenario_host conflict_state "C"%string rect_left 7 1%nat
           [("A"%string, mkSavedState (mkWindowState 10 20 []) 1);
            ("B"%string, mkSavedState (mkWindowState 30 40 []) 2)]); reflexivity.
Defined.

Lemma saveState_captures o t w st (wss : WindowsSavedStates) :
  match wget w wss with Some inner => oget o inner = None | None => True end ->
  exists inner', wget w (saveState o t w st wss) = Some inner' /\
    oget o inner' = Some (mkSavedState st t).
Proof.
  intros Hfree. unfold saveState. destruct (wget w wss) as [inner|] eqn:Hg.
  - repeat (rewrite Hg; cbv beta iota).
    assert (Hh : ohas o inner = false) by (unfold ohas, JSMap.has; unfold oget in Hfree;
                                           rewrite Hfree; reflexivity).
    rewrite Hh. eexists; split.
    + unfold wget, wset. apply (get_set_same Nat.eqb nat_eqb_spec).
    + unfold oget, oset. apply (get_set_same String.eqb string_eqb_spec).
  - repeat (rewrite Hg); cbv beta iota.
    unfold wget, wset. rewrite (get_set_same Nat.eqb nat_eqb_spec).
    unfold ohas, JSMap.has; simpl. rewrite (set_set Nat.eqb nat_eqb_spec).
    eexists; split.
    + apply (get_set_same Nat.eqb nat_eqb_spec).
    + unfold oget; simpl. rewrite String.eqb_refl. reflexivity.
Qed.

Lemma disconnectLoop_captures H o r t ws (wss : WindowsSavedStates) mdw w st :
  In w ws -> isInside H w r = true -> allowsMove H w = true -> save H w = Ok st ->
  match wget w wss with Some inner => oget o inner = None | None => True end ->
  exists inner', wget w (fst (disconnectLoop H true o r t ws wss mdw)) = Some inner' /\
    oget o inner' = Some (mkSavedState (toRelative st r) t).
Proof.
  intros Hin Hins Hmv Hsv. revert wss mdw.
  induction ws as [|y ws IH]; intros wss mdw Hfree; [contradiction|]. simpl.
  destruct (Nat.eqb_spec y w) as [->|Hne].
  - rewrite Hins, Hmv, Hsv. simpl.
    destruct (saveState_captures o t w (toRelative st r) wss Hfree) as [inner' [Hg Ho]].
    exists inner'; split; [|exact Ho].
    apply disconnectLoop_keeps_pending; [exact Hg|].
    unfold ohas, JSMap.has. unfold oget in Ho. rewrite Ho. reflexivity.
  - destruct Hin as [Heq|Hin]; [congruence|].
    destruct (negb (isInside H y r)); [exact (IH Hin _ _ Hfree)|].
    apply (IH Hin). destruct (allowsMove H y); simpl; [|exact Hfree].
    destruct (callSafely (save H y)); [|exact Hfree].
    rewrite saveState_get_other by congruence. exact Hfree.
Qed.

(** X8.  What a disconnect captures: with [rememberState] on, a listed
    window inside [r] that allows moving, whose [windowSaver.save] returns
    [st] and that has no pending state for [o], ends up with an entry for
    [o] holding [st] made relative to [r] and the time [now]. *)
Theorem disconnect_captures (H : Host) (e : Extension) (o : Output) (r : MonitorRect)
    (now : Z) (w : Window) (st : WindowState)
    (Hin : In w (list_windows H)) (Hinside : isInside H w r = true)
    (Hrem : rememberState (settings e) = true) (Hmove : allowsMove H w = true)
    (Hsave : save H w = Ok st)
    (Hfree : match wget w (windowsSavedStates e) with
             | Some inner => oget o inner = None | None => True end) :
  exists inner', wget w (windowsSavedStates (onOutputDisconnected H e o r now)) = Some inner' /\
    oget o inner' = Some (mkSavedState (toRelative st r) now).
Proof.
  unfold onOutputDisconnected. rewrite Hrem.
  destruct (disconnectLoop_captures H o r now (list_windows H) (windowsSavedStates e)
              (oset o [] (monitorDisconnectedWindows e)) w st Hin Hinside Hmove Hsave Hfree)
    as [inner' [Hg Ho]].
  destruct (disconnectLoop _ _ _ _ _ _ _ _) as [wss' mdw']; simpl in *.
  exists inner'; split; assumption.
Qed.

Lemma disconnect_captures_witness :
  exists inner',
    wget 1%nat (windowsSavedStates
                  (onOutputDisconnected scenario_host start "HDMI-1"%string rect_left 1000)) =
      Some inner' /\
    oget "HDMI-1"%string inner' = Some (mkSavedState (mkWindowState 100 50 []) 1000).
Proof.
  apply (disconnect_captures scenario_host start "HDMI-1"%string rect_left 1000 1%nat
           (mkWindowState 100 50 [])); simpl; auto.
Defined.

(** *** Monitor-loaded, globally *)

Lemma resolveWindow_None o r s : resolveWindow o r s = None <-> oget o s = None.
Proof. unfold resolveWindow. destruct (oget o s); split; congruence. Qed.

Lemma loadedLoop_clears H o r entries w s' :
  In (w, s') (fst (loadedLoop H o r entries)) -> oget o s' = None.
Proof.
  induction entries as [|[w0 s] rest IH]; simpl; [contradiction|].
  destruct (loadedLoop H o r rest) as [rest' effs]; simpl in *.
  destruct (resolveWindow o r s) as [[s1 st]|] eqn:Hres.
  - assert (Hs1 : oget o s1 = None).
    { unfold resolveWindow in Hres. destruct (oget o s) as [st0|]; [|discriminate].
      injection Hres as <- _.
      match goal with |- oget o ?L = None => destruct (oget o L) as [x|] eqn:Hx end;
        [|reflexivity].
      apply (get_In String.eqb string_eqb_spec) in Hx. apply filter_In in Hx as [Hx _].
      unfold odelete in Hx. apply (In_delete String.eqb string_eqb_spec) in Hx as [_ Hx].
      simpl in Hx. congruence. }
    destruct (callSafely (restore H w0 st r)); simpl;
      (intros [Heq|Hin]; [injection Heq as <- <-; exact Hs1|exact (IH Hin)]).
  - intros [Heq|Hin]; [injection Heq as <- <-; apply (proj1 (resolveWindow_None o r s)); exact Hres|exact (IH Hin)].
Qed.

Lemma loadedLoop_nothing_to_do H o r entries :
  (forall w s, In (w, s) entries -> oget o s = None) -> loadedLoop H o r entries = (entries, []).
Proof.
  induction entries as [|[w s] rest IH]; simpl; intros Hall; [reflexivity|].
  rewrite IH by (intros w' s' Hin; apply (Hall w'); right; exact Hin).
  assert (Hn : resolveWindow o r s = None) by (apply resolveWindow_None; apply (Hall w); left; reflexivity).
  rewrite Hn. reflexivity.
Qed.

(** X9.  After [_onMonitorLoaded o], no window has a pending state for
    [o] any more, so a second monitor-loaded of [o] (at any rectangle,
    under any host) changes nothing and restores nothing. *)
Theorem load_twice_noop (H H' : Host) (e : Extension) (o : Output) (r r' : MonitorRect) :
  let e1 := fst (onMonitorLoaded H e o r) in
  (forall w s, In (w, s) (windowsSavedStates e1) -> oget o s = None) /\
  onMonitorLoaded H' e1 o r' = (e1, []).
Proof.
  cbv zeta. unfold onMonitorLoaded.
  pose proof (loadedLoop_clears H o r (windowsSavedStates e)) as Hcl.
  destruct (loadedLoop H o r (windowsSavedStates e)) as [wss' effs]; simpl in *.
  split; [exact Hcl|].
  rewrite (loadedLoop_nothing_to_do H' o r' wss' Hcl). reflexivity.
Qed.

Lemma loadedLoop_effects H o r entries ef :
  In ef (snd (loadedLoop H o r entries)) -> exists w st, ef = Restore w st r.
Proof.
  induction entries as [|[w s] rest IH]; simpl; [contradiction|].
  destruct (loadedLoop H o r rest) as [rest' effs]; simpl in *.
  destruct (resolveWindow o r s) as [[s1 st]|]; [|exact IH].
  destruct (callSafely (restore H w st r)); simpl;
    (intros [<-|Hin]; [exists w, st; reflexivity|exact (IH Hin)]).
Qed.

(** X10.  Only monitor-loaded restores and only monitor-unloaded
    minimizes: every effect an event issues is a restore into the loaded
    monitor's rectangle for [MonitorLoaded], a minimize of a window of the
    stranded set for [MonitorUnloaded], and no effect for any other
    event. *)
Theorem effects_by_event (H : Host) (e : Extension) (ev : Event) (ef : Effect) :
  In ef (snd (step H e ev)) ->
  match ev, ef with
  | MonitorLoaded _ r, Restore _ _ r' => r' = r
  | MonitorUnloaded o _, Minimize w =>
      exists s, oget o (monitorDisconnectedWindows e) = Some s /\ In w s
  | _, _ => False
  end.
Proof.
  destruct ev as [o r t|o r|o r|o r|w|b|b]; simpl; try contradiction.
  - unfold onMonitorUnloaded. destruct (oget o (monitorDisconnectedWindows e)) as [s|];
      simpl; [|contradiction].
    intros Hin. apply in_map_iff in Hin as [w [<- Hin]]. apply filter_In in Hin as [Hin _].
    exists s; split; [reflexivity|exact Hin].
  - unfold onMonitorLoaded. intros Hin.
    pose proof (loadedLoop_effects H o r (windowsSavedStates e) ef) as Hl.
    destruct (loadedLoop H o r (windowsSavedStates e)) as [wss' effs]; simpl in *.
    destruct (Hl Hin) as [w [st ->]]. reflexivity.
Qed.

Lemma effects_by_event_witness :
  In (Minimize 3%nat)
     (snd (step scenario_host
             (onOutputDisconnected scenario_host start "HDMI-1"%string rect_left 1000)
             (MonitorUnloaded "HDMI-1"%string rect_left))) /\
  exists s, oget "HDMI-1"%string (monitorDisconnectedWindows
              (onOutputDisconnected scenario_host start "HDMI-1"%string rect_left 1000)) = Some s /\
            In 3%nat s.
Proof.
  assert (Hin : In (Minimize 3%nat)
     (snd (step scenario_host
             (onOutputDisconnected scenario_host start "HDMI-1"%string rect_left 1000)
             (MonitorUnloaded "HDMI-1"%string rect_left)))) by (simpl; auto).
  split; [exact Hin|].
  exact (effects_by_event scenario_host _ (MonitorUnloaded "HDMI-1"%string rect_left) _ Hin).
Defined.

(** *** Well-formed maps *)

Section WfLemmas.
Context {K V : Type} (eqb : K -> K -> bool).
Hypothesis eqb_spec : forall a b, reflect (a = b) (eqb a b).

Lemma In_set x k v (m : list (K * V)) :
  In x (JSMap.set eqb k v m) -> x = (k, v) \/ In x m.
Proof.
  induction m as [|[k' v'] m IH]; simpl; [intuition|].
  destruct (eqb k k'); simpl; intros [Hx|Hx]; auto.
  destruct (IH Hx); auto.
Qed.

Lemma map_wf_set (P : V -> Prop) k v m :
  map_wf P m -> P v -> map_wf P (JSMap.set eqb k v m).
Proof.
  intros [Hnd Hall] Hv. split; [apply (NoDup_keys_set eqb eqb_spec); exact Hnd|].
  intros k' v' Hin. apply In_set in Hin as [Heq|Hin]; [injection Heq as -> ->; exact Hv|].
  exact (Hall _ _ Hin).
Qed.

Lemma map_wf_delete (P : V -> Prop) k m : map_wf P m -> map_wf P (JSMap.delete eqb k m).
Proof.
  intros [Hnd Hall]. split; [apply NoDup_keys_filter; exact Hnd|].
  intros k' v' Hin. apply filter_In in Hin as [Hin _]. exact (Hall _ _ Hin).
Qed.

Lemma map_wf_get (P : V -> Prop) k m v : map_wf P m -> JSMap.get eqb k m = Some v -> P v.
Proof. intros [_ Hall] Hg. apply (get_In eqb eqb_spec) in Hg. exact (Hall _ _ Hg). Qed.
End WfLemmas.

Lemma well_formed_map_wf e :
  well_formed e <->
  map_wf inner_wf (windowsSavedStates e) /\ map_wf (@NoDup Window) (monitorDisconnectedWindows e).
Proof. unfold well_formed, map_wf, inner_wf. tauto. Qed.

Lemma saveState_wf o t w st (wss : WindowsSavedStates) :
  map_wf inner_wf wss -> map_wf inner_wf (saveState o t w st wss).
Proof.
  intros Hwf. unfold saveState. destruct (wget w wss) as [p|] eqn:Hg.
  - repeat (rewrite Hg; cbv beta iota).
    assert (Hp : inner_wf p) by exact (map_wf_get Nat.eqb nat_eqb_spec inner_wf w wss p Hwf Hg).
    destruct (ohas o p); [exact Hwf|].
    apply (map_wf_set Nat.eqb nat_eqb_spec); [exact Hwf|].
    apply (NoDup_keys_set String.eqb string_eqb_spec); exact Hp.
  - repeat (rewrite Hg); cbv beta iota.
    unfold wget, wset. rewrite (get_set_same Nat.eqb nat_eqb_spec).
    unfold ohas, JSMap.has; simpl. rewrite (set_set Nat.eqb nat_eqb_spec).
    apply (map_wf_set Nat.eqb nat_eqb_spec); [exact Hwf|].
    unfold inner_wf; simpl. constructor; [intros []|constructor].
Qed.

Lemma disconnectLoop_wf H rem o r t ws (wss : WindowsSavedStates)
    (mdw : MonitorDisconnectedWindows) :
  map_wf inner_wf wss -> map_wf (@NoDup Window) mdw ->
  map_wf inner_wf (fst (disconnectLoop H rem o r t ws wss mdw)) /\
  map_wf (@NoDup Window) (snd (disconnectLoop H rem o r t ws wss mdw)).
Proof.
  revert wss mdw. induction ws as [|w ws IH]; intros wss mdw Hw Hm; simpl; [split; assumption|].
  destruct (negb (isInside H w r)); [apply IH; assumption|].
  apply IH.
  - destruct (rem && allowsMove H w); [|exact Hw].
    destruct (callSafely (save H w)); [apply saveState_wf|]; exact Hw.
  - apply (map_wf_set String.eqb string_eqb_spec); [exact Hm|]. apply set_add_NoDup.
    destruct (oget o mdw) as [s|] eqn:Hg; [|constructor].
    exact (map_wf_get String.eqb string_eqb_spec _ o mdw s Hm Hg).
Qed.

Lemma loadedLoop_values_wf H o r entries :
  (forall w s, In (w, s) entries -> inner_wf s) ->
  forall w s, In (w, s) (fst (loadedLoop H o r entries)) -> inner_wf s.
Proof.
  induction entries as [|[w0 s0] rest IH]; simpl; intros Hall; [contradiction|].
  assert (IH' := IH (fun w s Hin => Hall w s (or_intror Hin))).
  assert (H0 := Hall w0 s0 (or_introl eq_refl)).
  destruct (loadedLoop H o r rest) as [rest' effs]; simpl in *.
  destruct (resolveWindow o r s0) as [[s1 st]|] eqn:Hres.
  - assert (Hs1 : inner_wf s1).
    { unfold resolveWindow in Hres. destruct (oget o s0); [|discriminate].
      injection Hres as <- _. unfold inner_wf, odelete, JSMap.delete.
      apply NoDup_keys_filter, NoDup_keys_filter. exact H0. }
    destruct (callSafely (restore H w0 st r)); simpl;
      (intros w s [Heq|Hin]; [injection Heq as <- <-; exact Hs1|exact (IH' _ _ Hin)]).
  - intros w s [Heq|Hin]; [injection Heq as <- <-; exact H0|exact (IH' _ _ Hin)].
Qed.

Lemma step_well_formed H e ev : well_formed e -> well_formed (fst (step H e ev)).
Proof.
  rewrite !well_formed_map_wf. intros [Hw Hm].
  destruct ev as [o r t|o r|o r|o r|w|b|b]; simpl.
  - unfold onOutputDisconnected.
    assert (Hm1 : map_wf (@NoDup Window) (oset o [] (monitorDisconnectedWindows e))).
    { apply (map_wf_set String.eqb string_eqb_spec); [exact Hm|constructor]. }
    pose proof (disconnectLoop_wf H (rememberState (settings e)) o r t (list_windows H)
                  (windowsSavedStates e) _ Hw Hm1) as Hl.
    destruct (disconnectLoop _ _ _ _ _ _ _ _); simpl in *. exact Hl.
  - split; [exact Hw|]. apply (map_wf_delete String.eqb). exact Hm.
  - unfold onMonitorUnloaded. destruct (oget o _); simpl; [|split; assumption].
    split; [exact Hw|]. apply (map_wf_delete String.eqb). exact Hm.
  - unfold onMonitorLoaded.
    pose proof (loadedLoop_keys H o r (windowsSavedStates e)) as Hk.
    pose proof (loadedLoop_values_wf H o r (windowsSavedStates e) (proj2 Hw)) as Hv.
    destruct (loadedLoop H o r (windowsSavedStates e)) as [wss' effs]; simpl in *.
    split; [split; [rewrite Hk; exact (proj1 Hw)|exact Hv]|exact Hm].
  - split; [apply (map_wf_delete Nat.eqb); exact Hw|]. destruct Hm as [Hnd Hall]. split.
    + rewrite map_map. simpl. exact Hnd.
    + intros o s Hin. apply in_map_iff in Hin as [[o' s'] [Heq Hin]].
      injection Heq as _ <-. apply NoDup_filter. exact (Hall _ _ Hin).
  - unfold onRememberStateChange. destruct b; simpl; split; try assumption.
    split; [constructor|intros _ _ []].
  - split; assumption.
Qed.

(** X11.  Every reachable state is well formed: [_windowsSavedStates],
    each window's inner map and [_monitorDisconnectedWindows] have
    distinct keys, and every stranded set has distinct windows.  In
    particular the hypothesis of C3 holds in every reachable state. *)
Theorem reachable_well_formed (e : Extension) (Hr : reachable e) : well_formed e.
Proof.
  induction Hr as [s|e H ev Hr IH].
  - unfold well_formed; simpl. repeat split; try constructor; intros _ _ [].
  - apply step_well_formed; exact IH.
Qed.

Lemma reachable_well_formed_witness :
  reachable (onOutputDisconnected scenario_host start "HDMI-1"%string rect_left 1000) /\
  well_formed (onOutputDisconnected scenario_host start "HDMI-1"%string rect_left 1000).
Proof.
  assert (Hr : reachable (onOutputDisconnected scenario_host start "HDMI-1"%string rect_left 1000)).
  { exact (reachable_step start scenario_host
             (OutputDisconnected "HDMI-1"%string rect_left 1000) (reachable_enable _)). }
  split; [exact Hr|]. exact (reachable_well_formed _ Hr).
Defined.
